(** * leak_tracker: a shallow embedding of [src/leak_tracker.c]

    The tracker wraps malloc / calloc / realloc / free and keeps two singly
    linked lists (the active allocations and the pointers already freed)
    together with six [size_t] counters and the atexit flag.  The C file keeps
    them in static variables; here they are the fields of one record that is
    threaded through a small state-and-output monad.

    What the real allocator answers is not decided by the tracker, so every
    entry point takes the answers of the libc calls it makes as an argument
    (record [libc]).  Pointers are addresses ([Z], [NULL] is [0]); [size_t]
    values are integers reduced modulo [SIZE_MAX + 1].  The size arguments of
    the entry points are the [size_t] values the caller passes; the results
    below do not need them to be in range. *)

From Stdlib Require Import ZArith List String Bool Lia.
Import ListNotations.
Local Open Scope Z_scope.

(** ** Machine data *)

Definition pointer : Type := Z.
Definition NULL : pointer := 0.

(** [size_t] on the LP64 targets the tracker is built for.  No proof below
    depends on the width, only on [SIZE_MAX + 1] being positive. *)
Definition SIZE_MAX : Z := 2 ^ 64 - 1.
Arguments SIZE_MAX : simpl never.

Definition wrap (x : Z) : Z := x mod (SIZE_MAX + 1).
Arguments wrap : simpl never.

Definition is_size_t (x : Z) : Prop := 0 <= x <= SIZE_MAX.
Arguments is_size_t : simpl never.

(** ** The tracker's data *)

(** [struct AllocInfo] without its [next] field: the list is a Rocq list. *)
Record AllocInfo : Type := mkAllocInfo {
  ptr  : pointer;
  size : Z;
  file : string;
  line : Z
}.

(** [struct FreedInfo] holds a pointer and a link, so a node is its pointer. *)
Definition FreedInfo : Type := pointer.

(** The static variables of leak_tracker.c. *)
Record tracker : Type := mkTracker {
  head_allocs           : list AllocInfo;
  head_freed            : list FreedInfo;
  total_alloc_calls     : Z;
  total_free_calls      : Z;
  total_bytes_allocated : Z;
  total_bytes_freed     : Z;
  invalid_free_count    : Z;
  double_free_count     : Z;
  atexit_registered     : Z
}.

Definition initial : tracker := mkTracker [] [] 0 0 0 0 0 0 0.

(** Messages written to stderr, one constructor per [fprintf] of the file. *)
Inductive diagnostic : Type :=
| TrackingNodeFailed
| FreedInfoFailed
| MallocFailed (sz : Z) (f : string) (l : Z)
| CallocFailed (nmemb sz : Z) (f : string) (l : Z)
| ReallocNullFailed (sz : Z) (f : string) (l : Z)
| ReallocFailed (p : pointer) (sz : Z) (f : string) (l : Z)
| DoubleFree (p : pointer) (f : string) (l : Z)
| UntrackedRealloc (p : pointer) (f : string) (l : Z)
| UntrackedFree (p : pointer) (f : string) (l : Z).

(** What a call does to the outside world besides asking for memory. *)
Inductive event : Type :=
| Atexit                      (* atexit(leak_report) *)
| RealFree (p : pointer)      (* free(ptr) on a user block *)
| Stderr (d : diagnostic).

(** The answers of the real allocator during one call of an entry point:
    the user's block (malloc, calloc or realloc), the [AllocInfo] node asked
    for by [record_allocation] and the [FreedInfo] node asked for by
    [add_to_freed_list].  Each entry point makes each of the three requests at
    most once.  [NULL] is a failed request. *)
Record libc : Type := mkLibc {
  user_block : pointer;
  alloc_node : pointer;
  freed_node : pointer
}.

(** ** State and output monad *)

Definition M (A : Type) : Type := tracker -> A * tracker * list event.

Definition ret {A} (a : A) : M A := fun st => (a, st, []).

Definition bind {A B} (m : M A) (k : A -> M B) : M B :=
  fun st =>
    let '(a, st1, out1) := m st in
    let '(b, st2, out2) := k a st1 in
    (b, st2, out1 ++ out2).

Notation "x <- m ;; k" := (bind m (fun x => k))
  (at level 61, m at next level, right associativity).
Notation "m ;; k" := (bind m (fun _ => k))
  (at level 61, right associativity).

Definition get : M tracker := fun st => (st, st, []).
Definition modify (g : tracker -> tracker) : M unit := fun st => (tt, g st, []).
Definition emit (e : event) : M unit := fun st => (tt, st, [e]).

Definition result {A} (r : A * tracker * list event) : A := fst (fst r).
Definition final {A} (r : A * tracker * list event) : tracker := snd (fst r).
Definition output {A} (r : A * tracker * list event) : list event := snd r.

(** Assignments to the static variables. *)
Definition set_head_allocs (l : list AllocInfo) (st : tracker) : tracker :=
  mkTracker l (head_freed st) (total_alloc_calls st) (total_free_calls st)
    (total_bytes_allocated st) (total_bytes_freed st)
    (invalid_free_count st) (double_free_count st) (atexit_registered st).

Definition set_head_freed (l : list FreedInfo) (st : tracker) : tracker :=
  mkTracker (head_allocs st) l (total_alloc_calls st) (total_free_calls st)
    (total_bytes_allocated st) (total_bytes_freed st)
    (invalid_free_count st) (double_free_count st) (atexit_registered st).

Definition set_total_alloc_calls (n : Z) (st : tracker) : tracker :=
  mkTracker (head_allocs st) (head_freed st) n (total_free_calls st)
    (total_bytes_allocated st) (total_bytes_freed st)
    (invalid_free_count st) (double_free_count st) (atexit_registered st).

Definition set_total_free_calls (n : Z) (st : tracker) : tracker :=
  mkTracker (head_allocs st) (head_freed st) (total_alloc_calls st) n
    (total_bytes_allocated st) (total_bytes_freed st)
    (invalid_free_count st) (double_free_count st) (atexit_registered st).

Definition set_total_bytes_allocated (n : Z) (st : tracker) : tracker :=
  mkTracker (head_allocs st) (head_freed st) (total_alloc_calls st)
    (total_free_calls st) n (total_bytes_freed st)
    (invalid_free_count st) (double_free_count st) (atexit_registered st).

Definition set_total_bytes_freed (n : Z) (st : tracker) : tracker :=
  mkTracker (head_allocs st) (head_freed st) (total_alloc_calls st)
    (total_free_calls st) (total_bytes_allocated st) n
    (invalid_free_count st) (double_free_count st) (atexit_registered st).

Definition set_invalid_free_count (n : Z) (st : tracker) : tracker :=
  mkTracker (head_allocs st) (head_freed st) (total_alloc_calls st)
    (total_free_calls st) (total_bytes_allocated st) (total_bytes_freed st)
    n (double_free_count st) (atexit_registered st).

Definition set_double_free_count (n : Z) (st : tracker) : tracker :=
  mkTracker (head_allocs st) (head_freed st) (total_alloc_calls st)
    (total_free_calls st) (total_bytes_allocated st) (total_bytes_freed st)
    (invalid_free_count st) n (atexit_registered st).

Definition set_atexit_registered (n : Z) (st : tracker) : tracker :=
  mkTracker (head_allocs st) (head_freed st) (total_alloc_calls st)
    (total_free_calls st) (total_bytes_allocated st) (total_bytes_freed st)
    (invalid_free_count st) (double_free_count st) n.

(** ** The static helpers *)

(** register_leak_report (lines 66-71). *)
Definition register_leak_report : M unit :=
  st <- get ;;
  if atexit_registered st =? 0 then
    emit Atexit ;;
    modify (set_atexit_registered 1)
  else ret tt.

(** record_allocation (lines 74-89): the node is pushed at the head, then the
    call counter and the byte counter are bumped.  When the node cannot be
    allocated nothing is recorded and nothing is counted. *)
Definition record_allocation (h : libc) (p : pointer) (sz : Z)
    (f : string) (l : Z) : M unit :=
  if alloc_node h =? NULL then
    emit (Stderr TrackingNodeFailed)
  else
    modify (fun st => set_head_allocs (mkAllocInfo p sz f l :: head_allocs st) st) ;;
    modify (fun st => set_total_alloc_calls (wrap (total_alloc_calls st + 1)) st) ;;
    modify (fun st => set_total_bytes_allocated (wrap (total_bytes_allocated st + sz)) st).

(** The loop of remove_allocation_node (lines 97-113): the first node whose
    pointer is [p] is unlinked; its size and the remaining list are returned. *)
Fixpoint unlink (p : pointer) (cur : list AllocInfo)
    : option (Z * list AllocInfo) :=
  match cur with
  | [] => None
  | node :: next =>
      if ptr node =? p then Some (size node, next)
      else match unlink p next with
           | Some (sz, next') => Some (sz, node :: next')
           | None => None
           end
  end.

(** remove_allocation_node (lines 96-114): [Some sz] stands for the return
    value 1 with [*out_size = sz], [None] for the return value 0.  The
    free(cur) of line 107 gives the tracker's own node back to the allocator;
    the list has no node addresses and that call is not an event: [RealFree]
    stands for the free(ptr) of line 287 only. *)
Definition remove_allocation_node (p : pointer) : M (option Z) :=
  st <- get ;;
  match unlink p (head_allocs st) with
  | Some (sz, rest) => modify (set_head_allocs rest) ;; ret (Some sz)
  | None => ret None
  end.

(** The loop of is_in_freed_list (lines 118-125). *)
Fixpoint freed_scan (p : pointer) (cur : list FreedInfo) : bool :=
  match cur with
  | [] => false
  | q :: next => if q =? p then true else freed_scan p next
  end.

Definition is_in_freed_list (p : pointer) : M bool :=
  st <- get ;; ret (freed_scan p (head_freed st)).

(** add_to_freed_list (lines 129-138). *)
Definition add_to_freed_list (h : libc) (p : pointer) : M unit :=
  if freed_node h =? NULL then
    emit (Stderr FreedInfoFailed)
  else
    modify (fun st => set_head_freed (p :: head_freed st) st).

(** ** The report *)

Inductive report_line : Type :=
| ReportHeader
| AllocCalls (n : Z)
| FreeCalls (n : Z)
| BytesAllocated (n : Z)
| BytesFreed (n : Z)
| DoubleFrees (n : Z)
| InvalidFrees (n : Z)
| NoLeaks
| LeakedBlocksHeader
| Leak (p : pointer) (sz : Z) (f : string) (l : Z)
| Summary (blocks bytes : Z)
| ReportFooter.

(** The while loop of leak_report (lines 158-164), with its two accumulators. *)
Fixpoint leak_loop (curr : list AllocInfo) (leaked_blocks leaked_bytes : Z)
    : list report_line * Z * Z :=
  match curr with
  | [] => ([], leaked_blocks, leaked_bytes)
  | node :: next =>
      let r := leak_loop next (wrap (leaked_blocks + 1))
                         (wrap (leaked_bytes + size node)) in
      (Leak (ptr node) (size node) (file node) (line node) :: fst (fst r),
       snd (fst r), snd r)
  end.

(** leak_report (lines 141-169). *)
Definition leak_report (st : tracker) : list report_line :=
  [ReportHeader;
   AllocCalls (total_alloc_calls st);
   FreeCalls (total_free_calls st);
   BytesAllocated (total_bytes_allocated st);
   BytesFreed (total_bytes_freed st);
   DoubleFrees (double_free_count st);
   InvalidFrees (invalid_free_count st)]
  ++ match head_allocs st with
     | [] => [NoLeaks]
     | _ :: _ =>
         let r := leak_loop (head_allocs st) 0 0 in
         LeakedBlocksHeader :: fst (fst r) ++ [Summary (snd (fst r)) (snd r)]
     end
  ++ [ReportFooter].

(** ** The four entry points *)

(** my_malloc (lines 175-186). *)
Definition my_malloc (h : libc) (sz : Z) (f : string) (l : Z) : M pointer :=
  st <- get ;;
  (if atexit_registered st =? 0 then register_leak_report else ret tt) ;;
  let p := user_block h in
  if p =? NULL then
    emit (Stderr (MallocFailed sz f l)) ;;
    ret NULL
  else
    record_allocation h p sz f l ;;
    ret p.

(** my_calloc (lines 192-204): the recorded size is the [size_t] product. *)
Definition my_calloc (h : libc) (nmemb sz : Z) (f : string) (l : Z) : M pointer :=
  st <- get ;;
  (if atexit_registered st =? 0 then register_leak_report else ret tt) ;;
  let p := user_block h in
  if p =? NULL then
    emit (Stderr (CallocFailed nmemb sz f l)) ;;
    ret NULL
  else
    record_allocation h p (wrap (nmemb * sz)) f l ;;
    ret p.

(** my_free (lines 273-303). *)
Definition my_free (h : libc) (p : pointer) (f : string) (l : Z) : M unit :=
  modify (fun st => set_total_free_calls (wrap (total_free_calls st + 1)) st) ;;
  if p =? NULL then ret tt
  else
    found <- remove_allocation_node p ;;
    match found with
    | Some block_size =>
        modify (fun st => set_total_bytes_freed (wrap (total_bytes_freed st + block_size)) st) ;;
        add_to_freed_list h p ;;
        emit (RealFree p)
    | None =>
        freed <- is_in_freed_list p ;;
        if freed then
          modify (fun st => set_double_free_count (wrap (double_free_count st + 1)) st) ;;
          emit (Stderr (DoubleFree p f l))
        else
          modify (fun st => set_invalid_free_count (wrap (invalid_free_count st + 1)) st) ;;
          emit (Stderr (UntrackedFree p f l))
    end.

(** my_realloc (lines 210-267).  [user_block h] is the answer of the one real
    call the taken path makes: malloc when [p] is NULL, realloc otherwise. *)
Definition my_realloc (h : libc) (p : pointer) (sz : Z) (f : string) (l : Z)
    : M pointer :=
  st <- get ;;
  (if atexit_registered st =? 0 then register_leak_report else ret tt) ;;
  if p =? NULL then
    let newptr := user_block h in
    if newptr =? NULL then
      emit (Stderr (ReallocNullFailed sz f l)) ;;
      ret NULL
    else
      record_allocation h newptr sz f l ;;
      ret newptr
  else if sz =? 0 then
    my_free h p f l ;;
    ret NULL
  else
    found <- remove_allocation_node p ;;
    match found with
    | None =>
        freed <- is_in_freed_list p ;;
        (if freed then
           modify (fun st => set_double_free_count (wrap (double_free_count st + 1)) st) ;;
           emit (Stderr (DoubleFree p f l))
         else
           modify (fun st => set_invalid_free_count (wrap (invalid_free_count st + 1)) st) ;;
           emit (Stderr (UntrackedRealloc p f l))) ;;
        ret (user_block h)
    | Some old_size =>
        let newptr := user_block h in
        if newptr =? NULL then
          emit (Stderr (ReallocFailed p sz f l)) ;;
          ret NULL
        else
          add_to_freed_list h p ;;
          record_allocation h newptr sz f l ;;
          modify (fun st => set_total_bytes_freed (wrap (total_bytes_freed st + old_size)) st) ;;
          ret newptr
    end.

(** ** Runs *)

(** One call of an entry point, as the macros of leak_tracker.h issue them. *)
Inductive call : Type :=
| Malloc (sz : Z) (f : string) (l : Z)
| Calloc (nmemb sz : Z) (f : string) (l : Z)
| Realloc (p : pointer) (sz : Z) (f : string) (l : Z)
| Free (p : pointer) (f : string) (l : Z).

(** The tracker after one call, given what the allocator answered. *)
Definition step (st : tracker) (hc : libc * call) : tracker :=
  match snd hc with
  | Malloc sz f l => final (my_malloc (fst hc) sz f l st)
  | Calloc nmemb sz f l => final (my_calloc (fst hc) nmemb sz f l st)
  | Realloc p sz f l => final (my_realloc (fst hc) p sz f l st)
  | Free p f l => final (my_free (fst hc) p f l st)
  end.

Definition run (t : list (libc * call)) (st : tracker) : tracker :=
  fold_left step t st.

(** ** Derived notions used by the statements *)

(** The identities of the active allocations, head first. *)
Definition ledger (st : tracker) : list pointer := map ptr (head_allocs st).

(** The sum of the recorded sizes, as an integer. *)
Fixpoint ledger_bytes (l : list AllocInfo) : Z :=
  match l with
  | [] => 0
  | node :: next => size node + ledger_bytes next
  end.

(** The byte total printed in the summary line of the report. *)
Definition leaked_bytes (st : tracker) : Z := snd (leak_loop (head_allocs st) 0 0).

(** Sum of the recorded sizes = bytes allocated - bytes freed, in [size_t]. *)
Definition balanced (st : tracker) : Prop :=
  wrap (ledger_bytes (head_allocs st))
  = wrap (total_bytes_allocated st - total_bytes_freed st).

Definition tracked (p : pointer) (st : tracker) : bool :=
  match unlink p (head_allocs st) with Some _ => true | None => false end.

(** The call is a realloc of a tracked block to a non-zero size and the real
    realloc fails: the path of lines 255-260, which has already unlinked the
    block's record. *)
Definition loses_record (st : tracker) (hc : libc * call) : bool :=
  match snd hc with
  | Realloc p sz _ _ =>
      negb (p =? NULL) && negb (sz =? 0) && tracked p st
      && (user_block (fst hc) =? NULL)
  | _ => false
  end.

Fixpoint lossless (st : tracker) (t : list (libc * call)) : bool :=
  match t with
  | [] => true
  | hc :: t' => negb (loses_record st hc) && lossless (step st hc) t'
  end.

Definition counters_ok (st : tracker) : Prop :=
  is_size_t (total_alloc_calls st) /\ is_size_t (total_free_calls st) /\
  is_size_t (total_bytes_allocated st) /\ is_size_t (total_bytes_freed st) /\
  is_size_t (invalid_free_count st) /\ is_size_t (double_free_count st).

(** The data-model invariants of the active list: an identity is recorded at
    most once, NULL is never recorded, and a record exists only after some
    allocating entry point has set the atexit flag. *)
Record ledger_ok (st : tracker) : Prop := mkLedgerOk {
  ok_nodup   : NoDup (ledger st);
  ok_nonnull : ~ In NULL (ledger st);
  ok_latch   : head_allocs st <> [] -> atexit_registered st <> 0
}.

(** What the real allocator guarantees: a block it hands out is not one of
    the live blocks, except that realloc may return the block it was given. *)
Definition fresh (st : tracker) (hc : libc * call) : Prop :=
  match snd hc with
  | Malloc _ _ _ | Calloc _ _ _ _ => ~ In (user_block (fst hc)) (ledger st)
  | Realloc p _ _ _ =>
      user_block (fst hc) = p \/ ~ In (user_block (fst hc)) (ledger st)
  | Free _ _ _ => True
  end.

Inductive reachable : tracker -> Prop :=
| reach_initial : reachable initial
| reach_step st hc : reachable st -> fresh st hc -> reachable (step st hc).

(** ** Allocate / release pairs *)

(** The identities handed out and not yet released, most recent first;
    [remove_one] drops the most recent occurrence. *)
Fixpoint remove_one (p : pointer) (live : list pointer) : list pointer :=
  match live with
  | [] => []
  | q :: rest => if q =? p then rest else q :: remove_one p rest
  end.

(** [paired live t]: [t] consists of my_malloc calls in which the real
    allocator delivers both the block and the tracking node, and of my_free
    calls on an identity handed out before and not released since; at the end
    every identity handed out has been released. *)
Fixpoint paired (live : list pointer) (t : list (libc * call)) : bool :=
  match t with
  | [] => match live with [] => true | _ :: _ => false end
  | (h, Malloc _ _ _) :: t' =>
      negb (user_block h =? NULL) && negb (alloc_node h =? NULL)
      && paired (user_block h :: live) t'
  | (h, Free p _ _) :: t' =>
      existsb (Z.eqb p) live && paired (remove_one p live) t'
  | _ => false
  end.

(** The [Leak] lines of the report. *)
Definition leak_lines (st : tracker) : list report_line :=
  fst (fst (leak_loop (head_allocs st) 0 0)).

(** ** The demo program (examples/demo_allocs.c) *)

Definition demo : list (libc * call) :=
  [ (mkLibc 4096 64 0, Malloc 20 "demo_allocs.c" 16);
    (mkLibc 0 0 65,    Free 4096 "demo_allocs.c" 21);
    (mkLibc 4128 66 0, Malloc 20 "demo_allocs.c" 25);
    (mkLibc 4096 67 0, Malloc 12 "demo_allocs.c" 32);
    (mkLibc 0 0 68,    Free 4096 "demo_allocs.c" 37);
    (mkLibc 0 0 69,    Free 4096 "demo_allocs.c" 38);
    (mkLibc 0 0 70,    Free 140737488347000 "demo_allocs.c" 43) ].


(** A session that goes through the four entry points: the realloc of line
    12 moves the block, the one of line 14 is given NULL, the one of line 15
    a size of zero. *)
Definition session : list (libc * call) :=
  [ (mkLibc 4096 64 0,  Malloc 20 "main.c" 10);
    (mkLibc 4128 65 0,  Calloc 4 8 "main.c" 11);
    (mkLibc 4200 66 67, Realloc 4096 40 "main.c" 12);
    (mkLibc 0 0 68,     Free 4128 "main.c" 13);
    (mkLibc 4096 69 0,  Realloc 0 16 "main.c" 14);
    (mkLibc 0 0 70,     Realloc 4096 0 "main.c" 15) ].

(** A block is allocated and the realloc that should grow it fails. *)
Definition failed_growth : list (libc * call) :=
  [ (mkLibc 4096 64 0, Malloc 10 "main.c" 10);
    (mkLibc 0 0 0,     Realloc 4096 20 "main.c" 11) ].

(** ** What a run prints and calls *)

(** The events of one call, and of a run of calls. *)
Definition call_output (st : tracker) (hc : libc * call) : list event :=
  match snd hc with
  | Malloc sz f l => output (my_malloc (fst hc) sz f l st)
  | Calloc nmemb sz f l => output (my_calloc (fst hc) nmemb sz f l st)
  | Realloc p sz f l => output (my_realloc (fst hc) p sz f l st)
  | Free p f l => output (my_free (fst hc) p f l st)
  end.

Fixpoint run_output (t : list (libc * call)) (st : tracker) : list event :=
  match t with
  | [] => []
  | hc :: t' => call_output st hc ++ run_output t' (step st hc)
  end.

Definition is_atexit (e : event) : bool :=
  match e with Atexit => true | _ => false end.

(** The number of atexit(leak_report) calls among the events. *)
Definition atexit_calls (out : list event) : nat :=
  List.length (filter is_atexit out).

(** The entry points that start with the atexit test: all but my_free. *)
Definition registers (c : call) : bool :=
  match c with Free _ _ _ => false | _ => true end.

(** ** Counting over a run *)

(** The size of the record that a call drops on the path of lines 255-260,
    0 on every other path. *)
Definition lost_bytes (st : tracker) (hc : libc * call) : Z :=
  match snd hc with
  | Realloc p _ _ _ =>
      if loses_record st hc then
        match unlink p (head_allocs st) with
        | Some (old_size, _) => old_size
        | None => 0
        end
      else 0
  | _ => 0
  end.

Fixpoint lost_in_run (st : tracker) (t : list (libc * call)) : Z :=
  match t with
  | [] => 0
  | hc :: t' => lost_bytes st hc + lost_in_run (step st hc) t'
  end.

(** The calls that reach the first statement of my_free: the my_free calls
    and the my_realloc calls with a non-NULL pointer and a size of zero. *)
Definition enters_my_free (c : call) : bool :=
  match c with
  | Free _ _ _ => true
  | Realloc p sz _ _ => negb (p =? NULL) && (sz =? 0)
  | _ => false
  end.

Fixpoint release_calls (t : list (libc * call)) : Z :=
  match t with
  | [] => 0
  | hc :: t' => (if enters_my_free (snd hc) then 1 else 0) + release_calls t'
  end.

(** A run of my_malloc calls in which the allocator delivers every block and
    every tracking node. *)
Definition malloc_ok (hc : libc * call) : bool :=
  match snd hc with
  | Malloc _ _ _ =>
      negb (user_block (fst hc) =? NULL) && negb (alloc_node (fst hc) =? NULL)
  | _ => false
  end.

(** The line that the report prints for one record. *)
Definition leak_line (node : AllocInfo) : report_line :=
  Leak (ptr node) (size node) (file node) (line node).

(** ** The report of the demo *)

Example demo_report :
  leak_report (run demo initial)
  = [ReportHeader; AllocCalls 3; FreeCalls 4; BytesAllocated 52; BytesFreed 32;
     DoubleFrees 1; InvalidFrees 1; LeakedBlocksHeader;
     Leak 4128 20 "demo_allocs.c" 25; Summary 1 20; ReportFooter].
Proof. vm_compute. reflexivity. Qed.

(** ** Arithmetic of [size_t] *)

Lemma SIZE_MAX_pos : 0 < SIZE_MAX + 1.
Proof. unfold SIZE_MAX. lia. Qed.

Lemma wrap_is_size_t (x : Z) : is_size_t (wrap x).
Proof.
  unfold is_size_t, wrap.
  pose proof (Z.mod_pos_bound x (SIZE_MAX + 1) SIZE_MAX_pos). lia.
Qed.

Lemma wrap_small (x : Z) : is_size_t x -> wrap x = x.
Proof. unfold is_size_t, wrap. intros H. apply Z.mod_small. lia. Qed.

Lemma wrap_add_l (a b : Z) : wrap (wrap a + b) = wrap (a + b).
Proof. unfold wrap. apply Z.add_mod_idemp_l. pose proof SIZE_MAX_pos. lia. Qed.

Lemma wrap_add_r (a b : Z) : wrap (a + wrap b) = wrap (a + b).
Proof. unfold wrap. apply Z.add_mod_idemp_r. pose proof SIZE_MAX_pos. lia. Qed.

Lemma wrap_sub_l (a b : Z) : wrap (wrap a - b) = wrap (a - b).
Proof. unfold wrap. apply Zminus_mod_idemp_l. Qed.

Lemma wrap_sub_r (a b : Z) : wrap (a - wrap b) = wrap (a - b).
Proof. unfold wrap. apply Zminus_mod_idemp_r. Qed.

(** Equal residues stay equal when the same amount is added on both sides. *)
Lemma wrap_shift (a b c : Z) : wrap a = wrap b -> wrap (a + c) = wrap (b + c).
Proof.
  intros H. rewrite <- (wrap_add_l a), <- (wrap_add_l b), H. reflexivity.
Qed.

Lemma wrap_zero_diff (a b : Z) :
  is_size_t a -> is_size_t b -> wrap (a - b) = 0 -> a = b.
Proof.
  unfold is_size_t, wrap. intros Ha Hb H.
  pose proof SIZE_MAX_pos as Hp.
  apply Z.mod_divide in H; [|lia].
  destruct H as [k Hk].
  assert (k = 0) by nia. subst k. lia.
Qed.

(** ** Unfolding the entry points *)

Ltac unfold_monad :=
  unfold bind, ret, get, modify, emit, final, result, output in *.

Ltac unfold_helpers :=
  unfold record_allocation, remove_allocation_node, is_in_freed_list,
    add_to_freed_list, register_leak_report in *.

Ltac unfold_entry :=
  unfold my_malloc, my_calloc, my_realloc, my_free in *.

Ltac exec := unfold_entry; unfold_helpers; unfold_monad; cbn.

(** Splits on the first test that still blocks the evaluation. *)
Ltac split_test :=
  match goal with
  | |- context [if ?b then _ else _] =>
      lazymatch b with
      | context [if _ then _ else _] => fail
      | context [match _ with _ => _ end] => fail
      | _ => let E := fresh "E" in destruct b eqn:E
      end
  | |- context [match unlink ?p ?l with _ => _ end] =>
      let E := fresh "E" in destruct (unlink p l) as [[? ?]|] eqn:E
  end.

(** Uses a test whose outcome is already among the hypotheses. *)
Ltac use_known :=
  match goal with
  | H : ?b = _ |- context [if ?b then _ else _] => rewrite H
  | H : unlink ?p ?l = _ |- context [unlink ?p ?l] => rewrite H
  end.

Ltac cases := exec; repeat (first [use_known | split_test]; cbn).

(** Splits the conjunctions that are written in the goal. *)
Ltac splits := repeat match goal with |- _ /\ _ => split end.

(** ** The active list *)

Lemma unlink_some p l sz rest :
  unlink p l = Some (sz, rest) ->
  exists pre node tail,
    l = pre ++ node :: tail /\ rest = pre ++ tail /\
    ptr node = p /\ size node = sz /\ ~ In p (map ptr pre).
Proof.
  revert sz rest.
  induction l as [|n l IH]; intros sz rest H; cbn in H; [discriminate|].
  destruct (ptr n =? p) eqn:E.
  - inversion H; subst. exists [], n, rest. apply Z.eqb_eq in E. cbn.
    repeat split; auto.
  - destruct (unlink p l) as [[s r]|] eqn:U; [|discriminate].
    inversion H; subst.
    destruct (IH _ _ eq_refl) as (pre & node & tail & -> & -> & Hp & Hs & Hn).
    exists (n :: pre), node, tail. apply Z.eqb_neq in E. cbn.
    repeat split; auto. intros A. destruct A as [A|A]; auto.
Qed.

Lemma unlink_none p l : unlink p l = None <-> ~ In p (map ptr l).
Proof.
  induction l as [|n l IH]; cbn; [tauto|].
  destruct (ptr n =? p) eqn:E.
  - apply Z.eqb_eq in E. split; [discriminate|]. intros H. exfalso. auto.
  - apply Z.eqb_neq in E.
    destruct (unlink p l) as [[s r]|].
    + split; [discriminate|]. intros H. exfalso. apply H. right.
      destruct (in_dec Z.eq_dec p (map ptr l)) as [i|n0]; auto.
      apply IH in n0. discriminate.
    + split; auto. intros _ [A|A]; auto. apply IH in A; auto.
Qed.

Lemma tracked_in p st : tracked p st = true <-> In p (ledger st).
Proof.
  unfold tracked, ledger.
  destruct (unlink p (head_allocs st)) as [[s r]|] eqn:U.
  - split; auto. intros _.
    destruct (in_dec Z.eq_dec p (map ptr (head_allocs st))); auto.
    apply unlink_none in n. congruence.
  - split; [discriminate|]. intros H. apply unlink_none in U. contradiction.
Qed.

Lemma unlink_bytes p l sz rest :
  unlink p l = Some (sz, rest) -> ledger_bytes l = sz + ledger_bytes rest.
Proof.
  revert sz rest.
  induction l as [|n l IH]; intros sz rest H; cbn in H; [discriminate|].
  destruct (ptr n =? p).
  - inversion H; subst. reflexivity.
  - destruct (unlink p l) as [[s r]|]; [|discriminate].
    inversion H; subst. cbn. rewrite (IH _ _ eq_refl). lia.
Qed.

Lemma unlink_length p l sz rest :
  unlink p l = Some (sz, rest) -> List.length l = S (List.length rest).
Proof.
  intros H.
  destruct (unlink_some _ _ _ _ H) as (pre & node & tail & -> & -> & _).
  rewrite !length_app. cbn. lia.
Qed.

(** ** The byte balance *)

Lemma leak_loop_bytes l blocks bytes :
  snd (leak_loop l blocks bytes)
  = match l with [] => bytes | _ :: _ => wrap (bytes + ledger_bytes l) end.
Proof.
  revert blocks bytes.
  induction l as [|n l IH]; intros blocks bytes; cbn; [reflexivity|].
  rewrite IH. destruct l as [|n' l]; cbn.
  - f_equal. lia.
  - rewrite wrap_add_l. f_equal. lia.
Qed.

(** The summary line of the report prints the wrapped sum of the sizes. *)
Lemma leaked_bytes_sum st : leaked_bytes st = wrap (ledger_bytes (head_allocs st)).
Proof.
  unfold leaked_bytes. rewrite leak_loop_bytes.
  destruct (head_allocs st); reflexivity.
Qed.

Lemma balanced_initial : balanced initial.
Proof. reflexivity. Qed.

(** Closes [wrap x = wrap y] from a balance [B : wrap a = wrap b] when [x] and
    [y] differ from [a] and [b] by the same amount. *)
Ltac rebalance B :=
  rewrite ?wrap_sub_l, ?wrap_sub_r;
  match type of B with
  | wrap ?a = wrap ?b =>
      match goal with
      | |- wrap ?x = wrap ?y =>
          replace x with (a + (x - a)) by lia;
          replace y with (b + (x - a)) by lia;
          apply wrap_shift; exact B
      end
  end.

Lemma balanced_step st hc :
  balanced st -> loses_record st hc = false -> balanced (step st hc).
Proof.
  destruct hc as [h c]. unfold step, loses_record, tracked, balanced.
  cbn [fst snd]. intros B L.
  destruct c as [sz f l|nmemb sz f l|p sz f l|p f l].
  - cases; solve [exact B | rebalance B].
  - generalize (wrap (nmemb * sz)). intros s.
    cases; solve [exact B | rebalance B].
  - destruct (unlink p (head_allocs st)) as [[old rest]|] eqn:U.
    + pose proof (unlink_bytes _ _ _ _ U) as S.
      destruct (p =? NULL) eqn:Ep, (sz =? 0) eqn:Es,
        (user_block h =? NULL) eqn:Eu; try discriminate L.
      all: cases; solve [exact B | rebalance B].
    + cases; solve [exact B | rebalance B].
  - destruct (unlink p (head_allocs st)) as [[old rest]|] eqn:U.
    + pose proof (unlink_bytes _ _ _ _ U) as S.
      cases; solve [exact B | rebalance B].
    + cases; solve [exact B | rebalance B].
Qed.

Lemma balanced_run t : forall st,
  balanced st -> lossless st t = true -> balanced (run t st).
Proof.
  induction t as [|hc t IH]; intros st B L; cbn in *; [exact B|].
  apply andb_true_iff in L. destruct L as [L1 L2].
  apply negb_true_iff in L1.
  apply IH; [apply balanced_step|]; assumption.
Qed.

(** The equation is exact when no wrap-around is involved. *)
Lemma balanced_exact st :
  balanced st ->
  is_size_t (ledger_bytes (head_allocs st)) ->
  is_size_t (total_bytes_allocated st - total_bytes_freed st) ->
  ledger_bytes (head_allocs st) = total_bytes_allocated st - total_bytes_freed st.
Proof.
  unfold balanced. intros B Hs Hd.
  rewrite (wrap_small _ Hs), (wrap_small _ Hd) in B. exact B.
Qed.

(** ** Invariants of reachable trackers *)

Lemma counters_ok_initial : counters_ok initial.
Proof.
  assert (is_size_t 0) by (unfold is_size_t, SIZE_MAX; lia).
  unfold counters_ok. cbn. tauto.
Qed.

Lemma counters_ok_step st hc : counters_ok st -> counters_ok (step st hc).
Proof.
  destruct hc as [h c]. unfold step, counters_ok. cbn [fst snd].
  intros (A & B & C & D & E & F).
  destruct c; cases; splits; auto using wrap_is_size_t.
Qed.

Lemma counters_ok_run t : forall st, counters_ok st -> counters_ok (run t st).
Proof.
  induction t as [|hc t IH]; intros st H; cbn; auto using counters_ok_step.
Qed.

Lemma unlink_ledger p l sz rest :
  unlink p l = Some (sz, rest) ->
  NoDup (map ptr l) ->
  NoDup (map ptr rest) /\ ~ In p (map ptr rest) /\
  (forall q, In q (map ptr rest) -> In q (map ptr l)).
Proof.
  intros U N.
  destruct (unlink_some _ _ _ _ U) as (pre & node & tail & -> & -> & Hp & _ & Hn).
  rewrite map_app in N. cbn in N. rewrite Hp in N.
  pose proof (NoDup_remove_1 _ _ _ N) as N1.
  pose proof (NoDup_remove_2 _ _ _ N) as N2.
  rewrite !map_app. cbn. repeat split; auto.
  intros q Hq. apply in_app_or in Hq. apply in_or_app.
  destruct Hq; [left|right; right]; assumption.
Qed.

Lemma unlink_incl p l sz rest :
  unlink p l = Some (sz, rest) ->
  forall q, In q (map ptr rest) -> In q (map ptr l).
Proof.
  intros U q Hq.
  destruct (unlink_some _ _ _ _ U) as (pre & node & tail & -> & -> & _).
  rewrite map_app in *. cbn. apply in_app_or in Hq. apply in_or_app.
  destruct Hq; [left|right; right]; assumption.
Qed.

Lemma ledger_ok_initial : ledger_ok initial.
Proof.
  split; cbn; [constructor|tauto|congruence].
Qed.

Lemma unlink_nonempty p l sz rest : unlink p l = Some (sz, rest) -> l <> [].
Proof. destruct l; [discriminate|congruence]. Qed.

Ltac eqb_props :=
  repeat match goal with
  | H : (_ =? _) = true |- _ => apply Z.eqb_eq in H
  | H : (_ =? _) = false |- _ => apply Z.eqb_neq in H
  end.

Ltac ledger_facts :=
  eqb_props;
  repeat match goal with
  | U : unlink ?p ?l = Some (?sz, ?rest), N : NoDup (map ptr ?l) |- _ =>
      pose proof (unlink_ledger _ _ _ _ U N);
      pose proof (unlink_nonempty _ _ _ _ U);
      clear U
  end;
  unfold NULL in *; cbn [In map ptr] in *.

Lemma ledger_ok_step st hc : ledger_ok st -> fresh st hc -> ledger_ok (step st hc).
Proof.
  destruct hc as [h c]. unfold step, fresh. cbn [fst snd].
  intros [N NZ L] F. unfold ledger in *.
  destruct c as [sz f l|nmemb sz f l|p sz f l|p f l].
  all: cases; split; unfold ledger; cbn; ledger_facts.
  all: try solve [intuition (subst; auto; try congruence; try (constructor; auto))].
Qed.

Lemma reachable_ok st : reachable st -> ledger_ok st /\ counters_ok st.
Proof.
  induction 1 as [|st hc R [IHl IHc] F].
  - split; [apply ledger_ok_initial|apply counters_ok_initial].
  - split; [apply ledger_ok_step|apply counters_ok_step]; assumption.
Qed.

(** ** C1: the byte balance *)

(** C1, as stated, fails: after my_malloc(10) and a my_realloc of that block
    whose real realloc fails (lines 255-260) the active list is empty, so the
    recorded sizes sum to 0, while 10 bytes are counted as allocated and none
    as freed. *)
Lemma byte_balance_broken_by_failed_realloc :
  let st := run failed_growth initial in
  ledger_bytes (head_allocs st) = 0 /\
  total_bytes_allocated st - total_bytes_freed st = 10 /\
  ~ balanced st.
Proof.
  cbv zeta. splits; [reflexivity|reflexivity|].
  unfold balanced. vm_compute. discriminate.
Qed.

(** C1 (amended): from the initial tracker, after every sequence of calls of
    the four entry points in which no my_realloc of a tracked block to a
    non-zero size has its real realloc fail, the sum of the sizes recorded in
    the active list equals bytes allocated minus bytes freed, as [size_t]
    values (modulo SIZE_MAX + 1). *)
Theorem byte_balance_without_failed_realloc (t : list (libc * call)) :
  lossless initial t = true -> balanced (run t initial).
Proof. apply balanced_run, balanced_initial. Qed.

Lemma byte_balance_session : balanced (run session initial).
Proof. apply (byte_balance_without_failed_realloc session). reflexivity. Defined.

(** ** C2: the atexit flag *)

Lemma allocating_calls_register h st :
  (forall sz f l, atexit_registered (final (my_malloc h sz f l st)) <> 0) /\
  (forall nmemb sz f l, atexit_registered (final (my_calloc h nmemb sz f l st)) <> 0) /\
  (forall p sz f l, atexit_registered (final (my_realloc h p sz f l st)) <> 0).
Proof.
  splits; intros; cases; eqb_props; auto; discriminate.
Qed.

Lemma my_free_keeps_flag h p f l st :
  atexit_registered (final (my_free h p f l st)) = atexit_registered st /\
  ~ In Atexit (output (my_free h p f l st)).
Proof.
  split; cases; intuition discriminate.
Qed.

(** C2: my_malloc, my_calloc and my_realloc set the atexit flag, but my_free
    (lines 273-303) never calls register_leak_report.  When the first call of
    a process is a my_free, the flag is still clear afterwards and atexit has
    not been called, so no report will be printed although an invalid free
    was counted. *)
Theorem first_call_my_free_does_not_register :
  let r := my_free (mkLibc 0 0 0) 140737488347000 "demo_allocs.c" 43 initial in
  atexit_registered (final r) = 0 /\
  invalid_free_count (final r) = 1 /\
  output r = [Stderr (UntrackedFree 140737488347000 "demo_allocs.c" 43)].
Proof. cbv zeta. splits; reflexivity. Qed.

(** ** C6: my_realloc(NULL, n) and my_malloc(n) *)

(** C6: for every size, origin, tracker and answers of the real allocator,
    my_realloc(NULL, size) returns what my_malloc(size) returns and leaves the
    same tracker: the same active list, freed list, counters and flag. *)
Theorem realloc_null_is_malloc (h : libc) (sz : Z) (f : string) (l : Z)
    (st : tracker) :
  result (my_realloc h NULL sz f l st) = result (my_malloc h sz f l st) /\
  final (my_realloc h NULL sz f l st) = final (my_malloc h sz f l st).
Proof. split; cases; reflexivity. Qed.

(** The two differ only in the text of the failure message. *)
Lemma realloc_null_output h sz f l st :
  user_block h <> NULL ->
  output (my_realloc h NULL sz f l st) = output (my_malloc h sz f l st).
Proof. intros H. apply Z.eqb_neq in H. cases; reflexivity. Qed.

(** ** C8: my_free counts every call; my_free(NULL) does nothing else *)

(** C8: every my_free bumps total_free_calls (line 274, the first statement,
    so also on the path that returns at once), and my_free(NULL) does nothing
    else: both lists, the other five counters and the flag are as before,
    and nothing is printed or freed. *)
Theorem my_free_counts_and_null_is_noop (h : libc) (p : pointer) (f : string)
    (l : Z) (st : tracker) :
  total_free_calls (final (my_free h p f l st)) = wrap (total_free_calls st + 1) /\
  let r := my_free h NULL f l st in
  final r = set_total_free_calls (wrap (total_free_calls st + 1)) st /\
  head_allocs (final r) = head_allocs st /\
  head_freed (final r) = head_freed st /\
  total_alloc_calls (final r) = total_alloc_calls st /\
  total_bytes_allocated (final r) = total_bytes_allocated st /\
  total_bytes_freed (final r) = total_bytes_freed st /\
  double_free_count (final r) = double_free_count st /\
  invalid_free_count (final r) = invalid_free_count st /\
  atexit_registered (final r) = atexit_registered st /\
  output r = [].
Proof. cbv zeta. splits; cases; reflexivity. Qed.

(** ** C3: releasing an identity that the allocator handed out again *)

Lemma in_ledger_unlink p st :
  In p (ledger st) ->
  exists sz rest, unlink p (head_allocs st) = Some (sz, rest).
Proof.
  intros H. destruct (unlink p (head_allocs st)) as [[sz rest]|] eqn:U; eauto.
  apply unlink_none in U. contradiction.
Qed.

(** C3, as stated, fails: 4096 is allocated, freed (so it is in the freed
    list), handed out again by a later my_malloc and freed again.  The last
    my_free finds the block in the active list (line 282) and never looks at
    the freed list: double_free_count stays 0. *)
Lemma release_after_reuse_not_double :
  let st3 := run [ (mkLibc 4096 64 0, Malloc 12 "demo_allocs.c" 32);
                   (mkLibc 0 0 65,    Free 4096 "demo_allocs.c" 37);
                   (mkLibc 4096 66 0, Malloc 12 "demo_allocs.c" 40) ] initial in
  let st4 := step st3 (mkLibc 0 0 67, Free 4096 "demo_allocs.c" 41) in
  freed_scan 4096 (head_freed st3) = true /\
  In 4096 (ledger st3) /\
  double_free_count st3 = 0 /\
  double_free_count st4 = 0 /\
  double_free_count st4 <> wrap (double_free_count st3 + 1).
Proof.
  cbv zeta. splits; try reflexivity.
  - left. reflexivity.
  - vm_compute. discriminate.
Qed.

(** C3 (amended): when an identity that is in the freed list is handed out
    again by a later my_malloc and recorded, the release of that new
    allocation is a valid free: the record is unlinked, its size is added to
    total_bytes_freed, the real free is called, and neither
    double_free_count nor invalid_free_count changes. *)
Theorem release_after_reuse_is_valid (st : tracker) (h1 h2 : libc)
    (p : pointer) (sz : Z) (f1 f2 : string) (l1 l2 : Z) :
  p <> NULL -> user_block h1 = p -> alloc_node h1 <> NULL ->
  freed_scan p (head_freed st) = true ->
  let st1 := final (my_malloc h1 sz f1 l1 st) in
  let r := my_free h2 p f2 l2 st1 in
  freed_scan p (head_freed st1) = true /\
  In p (ledger st1) /\
  head_allocs (final r) = head_allocs st /\
  total_bytes_freed (final r) = wrap (total_bytes_freed st + sz) /\
  double_free_count (final r) = double_free_count st /\
  invalid_free_count (final r) = invalid_free_count st /\
  output r
  = (if freed_node h2 =? NULL then [Stderr FreedInfoFailed] else []) ++ [RealFree p].
Proof.
  intros Hp Hu Hn Hf. subst p.
  apply Z.eqb_neq in Hp, Hn.
  pose proof (Z.eqb_refl (user_block h1)) as Hpp.
  cbv zeta. unfold ledger. splits; cases; auto.
Qed.

Lemma release_after_reuse_demo :
  let st := run [ (mkLibc 4096 64 0, Malloc 12 "demo_allocs.c" 32);
                  (mkLibc 0 0 65,    Free 4096 "demo_allocs.c" 37) ] initial in
  let st1 := final (my_malloc (mkLibc 4096 66 0) 12 "demo_allocs.c" 40 st) in
  let r := my_free (mkLibc 0 0 67) 4096 "demo_allocs.c" 41 st1 in
  double_free_count (final r) = double_free_count st.
Proof.
  cbv zeta.
  refine (proj1 (proj2 (proj2 (proj2 (proj2
    (release_after_reuse_is_valid _ (mkLibc 4096 66 0) (mkLibc 0 0 67) 4096 12
       "demo_allocs.c" "demo_allocs.c" 40 41 _ _ _ _)))))).
  - discriminate.
  - reflexivity.
  - discriminate.
  - reflexivity.
Defined.

(** ** C5: releasing an identity twice *)

(** C5, as stated, fails: when the FreedInfo node of the first release cannot
    be allocated (lines 131-134) the freed list does not grow, and the second
    release is counted as an invalid free, not as a double free. *)
Lemma double_release_without_freed_node :
  let st := step initial (mkLibc 4096 64 0, Malloc 12 "demo_allocs.c" 32) in
  let st1 := step st (mkLibc 0 0 0, Free 4096 "demo_allocs.c" 37) in
  let st2 := step st1 (mkLibc 0 0 0, Free 4096 "demo_allocs.c" 38) in
  In 4096 (ledger st) /\
  head_allocs st1 = [] /\
  head_freed st1 = head_freed st /\
  double_free_count st2 = double_free_count st1 /\
  invalid_free_count st2 = 1.
Proof. cbv zeta. splits; try reflexivity. left. reflexivity. Qed.

(** C5 (amended): for an identity recorded in the active list of a tracker
    that satisfies the data-model invariants, when the FreedInfo node of the
    first release can be allocated: the first release is a valid free (the
    active list loses one record, the freed list gains the identity, no
    misuse is counted); the second release bumps double_free_count by one and
    leaves total_bytes_freed, invalid_free_count and both lists unchanged. *)
Theorem double_release (st : tracker) (h1 h2 : libc) (p : pointer)
    (f1 f2 : string) (l1 l2 : Z) :
  ledger_ok st -> In p (ledger st) -> freed_node h1 <> NULL ->
  let st1 := final (my_free h1 p f1 l1 st) in
  let st2 := final (my_free h2 p f2 l2 st1) in
  List.length (head_allocs st) = S (List.length (head_allocs st1)) /\
  ~ In p (ledger st1) /\
  head_freed st1 = p :: head_freed st /\
  double_free_count st1 = double_free_count st /\
  invalid_free_count st1 = invalid_free_count st /\
  double_free_count st2 = wrap (double_free_count st1 + 1) /\
  total_bytes_freed st2 = total_bytes_freed st1 /\
  invalid_free_count st2 = invalid_free_count st1 /\
  head_allocs st2 = head_allocs st1 /\
  head_freed st2 = head_freed st1.
Proof.
  intros [N NZ _] Hin Hn.
  assert (Hp : p <> NULL) by (intros ->; contradiction).
  destruct (in_ledger_unlink _ _ Hin) as (sz & rest & U).
  destruct (unlink_ledger _ _ _ _ U N) as (_ & Hout & _).
  pose proof (unlink_length _ _ _ _ U) as Hlen.
  pose proof (proj2 (unlink_none p rest) Hout) as U2.
  apply Z.eqb_neq in Hp, Hn.
  pose proof (Z.eqb_refl p) as Hpp.
  cbv zeta. unfold ledger. splits; cases; auto.
Qed.

Lemma double_release_demo :
  let st := step initial (mkLibc 4096 64 0, Malloc 12 "demo_allocs.c" 32) in
  let st1 := final (my_free (mkLibc 0 0 65) 4096 "demo_allocs.c" 37 st) in
  let st2 := final (my_free (mkLibc 0 0 0) 4096 "demo_allocs.c" 38 st1) in
  double_free_count st2 = wrap (double_free_count st1 + 1).
Proof.
  cbv zeta.
  refine (proj1 (proj2 (proj2 (proj2 (proj2 (proj2
    (double_release _ (mkLibc 0 0 65) (mkLibc 0 0 0) 4096
       "demo_allocs.c" "demo_allocs.c" 37 38 _ _ _))))))).
  - split; cbn.
    + constructor; [intros []|constructor].
    + intros [H|[]]; discriminate H.
    + discriminate.
  - left. reflexivity.
  - discriminate.
Defined.

(** ** C4: matched allocate / release pairs *)

Lemma unlink_remove_one p l sz rest :
  unlink p l = Some (sz, rest) -> map ptr rest = remove_one p (map ptr l).
Proof.
  revert sz rest.
  induction l as [|n l IH]; intros sz rest H; cbn in *; [discriminate|].
  destruct (ptr n =? p).
  - inversion H; subst. reflexivity.
  - destruct (unlink p l) as [[s r]|]; [|discriminate].
    inversion H; subst. cbn. f_equal. eapply IH. reflexivity.
Qed.

Lemma remove_one_incl p live q : In q (remove_one p live) -> In q live.
Proof.
  induction live as [|x live IH]; cbn; auto.
  destruct (x =? p); cbn; intuition.
Qed.

Lemma existsb_eqb_in p live : existsb (Z.eqb p) live = true -> In p live.
Proof.
  intros H. apply existsb_exists in H. destruct H as (x & Hx & E).
  apply Z.eqb_eq in E. subst. assumption.
Qed.

Lemma my_malloc_records st h sz f l :
  user_block h <> NULL -> alloc_node h <> NULL ->
  let st' := final (my_malloc h sz f l st) in
  ledger st' = user_block h :: ledger st /\
  double_free_count st' = double_free_count st /\
  invalid_free_count st' = invalid_free_count st.
Proof.
  intros Hu Hn. apply Z.eqb_neq in Hu, Hn.
  cbv zeta. unfold ledger. splits; cases; reflexivity.
Qed.

Lemma my_free_tracked st h p f l :
  p <> NULL -> In p (ledger st) ->
  let st' := final (my_free h p f l st) in
  ledger st' = remove_one p (ledger st) /\
  double_free_count st' = double_free_count st /\
  invalid_free_count st' = invalid_free_count st.
Proof.
  intros Hp Hin. apply Z.eqb_neq in Hp.
  destruct (in_ledger_unlink _ _ Hin) as (sz & rest & U).
  pose proof (unlink_remove_one _ _ _ _ U) as R.
  cbv zeta. unfold ledger. splits; cases; auto.
Qed.

Lemma paired_lossless t : forall live st, paired live t = true -> lossless st t = true.
Proof.
  induction t as [|[h c] t IH]; intros live st H; cbn in *; [reflexivity|].
  destruct c; try discriminate H; cbn.
  - apply andb_true_iff in H. destruct H as [_ H]. eauto.
  - apply andb_true_iff in H. destruct H as [_ H]. eauto.
Qed.

Lemma paired_run t : forall st,
  paired (ledger st) t = true -> ~ In NULL (ledger st) ->
  ledger (run t st) = [] /\
  double_free_count (run t st) = double_free_count st /\
  invalid_free_count (run t st) = invalid_free_count st.
Proof.
  induction t as [|[h c] t IH]; intros st H NZ; cbn in H.
  - cbn. destruct (ledger st); [auto|discriminate].
  - destruct c as [sz f l| |?|p f l]; try discriminate H.
    + apply andb_true_iff in H. destruct H as [H Ht].
      apply andb_true_iff in H. destruct H as [Hu Hn].
      apply negb_true_iff, Z.eqb_neq in Hu, Hn.
      destruct (my_malloc_records st h sz f l Hu Hn) as (El & Ed & Ei).
      change (run ((h, Malloc sz f l) :: t) st)
        with (run t (final (my_malloc h sz f l st))).
      destruct (IH (final (my_malloc h sz f l st))) as (A & B & C).
      * rewrite El. exact Ht.
      * rewrite El. intros [X|X]; auto.
      * rewrite A, B, C. auto.
    + apply andb_true_iff in H. destruct H as [Hin Ht].
      apply existsb_eqb_in in Hin.
      assert (Hp : p <> NULL) by (intros ->; contradiction).
      destruct (my_free_tracked st h p f l Hp Hin) as (El & Ed & Ei).
      change (run ((h, Free p f l) :: t) st)
        with (run t (final (my_free h p f l st))).
      destruct (IH (final (my_free h p f l st))) as (A & B & C).
      * rewrite El. exact Ht.
      * rewrite El. intros X. apply remove_one_incl in X. contradiction.
      * rewrite A, B, C. auto.
Qed.

(** C4: for every sequence of my_malloc and my_free calls in which each
    my_free is given an identity handed out before and not released since,
    every request to the real allocator succeeds and every identity handed
    out is released: at the end the active list is empty, no double free and
    no invalid free has been counted, and bytes allocated = bytes freed. *)
Theorem paired_calls_leave_nothing (t : list (libc * call)) :
  paired [] t = true ->
  let st := run t initial in
  head_allocs st = [] /\
  double_free_count st = 0 /\
  invalid_free_count st = 0 /\
  total_bytes_allocated st = total_bytes_freed st.
Proof.
  intros H. cbv zeta.
  destruct (paired_run t initial H) as (A & B & C); [cbn; tauto|].
  assert (E : head_allocs (run t initial) = []).
  { unfold ledger in A. destruct (head_allocs (run t initial)); [auto|discriminate]. }
  splits; auto.
  pose proof (balanced_run t initial balanced_initial (paired_lossless _ _ _ H)) as Bal.
  destruct (counters_ok_run t initial counters_ok_initial) as (_ & _ & Ha & Hf & _).
  unfold balanced in Bal. rewrite E in Bal. cbn in Bal.
  apply wrap_zero_diff; auto.
Qed.

Lemma paired_calls_demo :
  let st := run [ (mkLibc 4096 64 0, Malloc 20 "demo_allocs.c" 16);
                  (mkLibc 4128 65 0, Malloc 12 "demo_allocs.c" 32);
                  (mkLibc 0 0 66,    Free 4096 "demo_allocs.c" 21);
                  (mkLibc 4096 67 0, Malloc 8 "demo_allocs.c" 40);
                  (mkLibc 0 0 0,     Free 4096 "demo_allocs.c" 41);
                  (mkLibc 0 0 68,    Free 4128 "demo_allocs.c" 37) ] initial in
  head_allocs st = [] /\
  double_free_count st = 0 /\
  invalid_free_count st = 0 /\
  total_bytes_allocated st = total_bytes_freed st.
Proof. apply paired_calls_leave_nothing. reflexivity. Defined.

(** ** C7: my_realloc(ptr, 0) and my_free(ptr) *)




(** ** C9: a failed realloc of a tracked block *)




(** ** The report, line by line *)

Lemma leak_loop_closed l : forall blocks bytes,
  leak_loop l blocks bytes
  = (map leak_line l,
     match l with [] => blocks | _ :: _ => wrap (blocks + Z.of_nat (List.length l)) end,
     match l with [] => bytes | _ :: _ => wrap (bytes + ledger_bytes l) end).
Proof.
  induction l as [|n l IH]; intros blocks bytes; [reflexivity|].
  cbn [leak_loop]. rewrite IH. cbn [fst snd map]. unfold leak_line at 2.
  destruct l as [|n' l].
  - cbn. rewrite Z.add_0_r. reflexivity.
  - rewrite !wrap_add_l.
    replace (blocks + 1 + Z.of_nat (List.length (n' :: l)))
      with (blocks + Z.of_nat (List.length (n :: n' :: l)))
      by (cbn [List.length]; lia).
    replace (bytes + size n + ledger_bytes (n' :: l))
      with (bytes + ledger_bytes (n :: n' :: l))
      by (cbn [ledger_bytes]; lia).
    reflexivity.
Qed.

Lemma leak_report_shape (st : tracker) :
  leak_report st
  = [ReportHeader;
     AllocCalls (total_alloc_calls st); FreeCalls (total_free_calls st);
     BytesAllocated (total_bytes_allocated st); BytesFreed (total_bytes_freed st);
     DoubleFrees (double_free_count st); InvalidFrees (invalid_free_count st)]
    ++ match head_allocs st with
       | [] => [NoLeaks]
       | _ :: _ =>
           LeakedBlocksHeader :: map leak_line (head_allocs st)
           ++ [Summary (wrap (Z.of_nat (List.length (head_allocs st))))
                       (wrap (ledger_bytes (head_allocs st)))]
       end
    ++ [ReportFooter].
Proof.
  unfold leak_report. rewrite leak_loop_closed.
  destruct (head_allocs st); reflexivity.
Qed.

(** X1: the report prints the six counters, then either "no leaks" (exactly
    when the active list is empty) or one line per record, most recent first,
    followed by a summary holding the number of records and the sum of their
    sizes, both as [size_t]. *)
Theorem report_lists_every_record (st : tracker) :
  leak_report st
  = [ReportHeader;
     AllocCalls (total_alloc_calls st); FreeCalls (total_free_calls st);
     BytesAllocated (total_bytes_allocated st); BytesFreed (total_bytes_freed st);
     DoubleFrees (double_free_count st); InvalidFrees (invalid_free_count st)]
    ++ match head_allocs st with
       | [] => [NoLeaks]
       | _ :: _ =>
           LeakedBlocksHeader :: map leak_line (head_allocs st)
           ++ [Summary (wrap (Z.of_nat (List.length (head_allocs st))))
                       (wrap (ledger_bytes (head_allocs st)))]
       end
    ++ [ReportFooter].
Proof. apply leak_report_shape. Qed.

(** ** Runs that only allocate *)

Lemma malloc_ok_step st hc :
  malloc_ok hc = true ->
  List.length (head_allocs (step st hc)) = S (List.length (head_allocs st)) /\
  head_freed (step st hc) = head_freed st /\
  total_alloc_calls (step st hc) = wrap (total_alloc_calls st + 1) /\
  total_free_calls (step st hc) = total_free_calls st /\
  total_bytes_freed (step st hc) = total_bytes_freed st /\
  loses_record st hc = false.
Proof.
  destruct hc as [h c]. unfold malloc_ok, step, loses_record. cbn [fst snd].
  destruct c; try discriminate. intros H.
  apply andb_true_iff in H. destruct H as [Hu Hn].
  apply negb_true_iff in Hu, Hn.
  splits; cases; reflexivity.
Qed.

Lemma allocate_only_run t : forall st,
  forallb malloc_ok t = true ->
  List.length (head_allocs (run t st))
  = (List.length t + List.length (head_allocs st))%nat /\
  head_freed (run t st) = head_freed st /\
  wrap (total_alloc_calls (run t st))
  = wrap (total_alloc_calls st + Z.of_nat (List.length t)) /\
  total_free_calls (run t st) = total_free_calls st /\
  total_bytes_freed (run t st) = total_bytes_freed st /\
  lossless st t = true.
Proof.
  induction t as [|hc t IH]; intros st H.
  - cbn. splits; auto. f_equal. lia.
  - cbn [forallb] in H. apply andb_true_iff in H. destruct H as [Hc Ht].
    destruct (malloc_ok_step st hc Hc) as (Ea & Ef & Ec & Er & Eb & El).
    destruct (IH (step st hc) Ht) as (A & B & C & D & E & F).
    change (run (hc :: t) st) with (run t (step st hc)).
    splits.
    + rewrite A, Ea. cbn [List.length]. lia.
    + congruence.
    + rewrite C, Ec, wrap_add_l. f_equal. cbn [List.length]. lia.
    + congruence.
    + congruence.
    + cbn [lossless]. rewrite El, F. reflexivity.
Qed.

(** X2: after a run of my_malloc calls in which the allocator delivers every
    block and every tracking node, nothing has been freed, the active list
    holds one record per call, total_alloc_calls is the number of calls, and
    the byte total of the report's summary is total_bytes_allocated. *)
Theorem allocate_only_report (t : list (libc * call)) :
  forallb malloc_ok t = true ->
  let st := run t initial in
  List.length (head_allocs st) = List.length t /\
  head_freed st = [] /\
  total_free_calls st = 0 /\
  total_bytes_freed st = 0 /\
  total_alloc_calls st = wrap (Z.of_nat (List.length t)) /\
  leaked_bytes st = total_bytes_allocated st /\
  (t <> [] ->
   In (Summary (total_alloc_calls st) (total_bytes_allocated st)) (leak_report st)).
Proof.
  intros H. cbv zeta.
  destruct (allocate_only_run t initial H) as (A & B & C & D & E & F).
  destruct (counters_ok_run t initial counters_ok_initial) as (Hc & _ & Ha & _).
  pose proof (balanced_run t initial balanced_initial F) as Bal.
  unfold balanced in Bal. rewrite E in Bal. cbn [initial total_bytes_freed] in Bal.
  rewrite Z.sub_0_r, (wrap_small _ Ha) in Bal.
  rewrite (wrap_small _ Hc) in C. cbn [initial total_alloc_calls] in C.
  assert (Hlen : List.length (head_allocs (run t initial)) = List.length t).
  { rewrite A. cbn. lia. }
  splits; auto.
  - rewrite leaked_bytes_sum. exact Bal.
  - intros Hne. rewrite leak_report_shape.
    destruct (head_allocs (run t initial)) as [|n ns] eqn:Hl.
    + destruct t; [contradiction|discriminate Hlen].
    + apply in_or_app. right. apply in_or_app. left. right.
      apply in_or_app. right. left.
      rewrite Bal, Hlen, C. reflexivity.
Qed.

Lemma allocate_only_demo :
  let st := run [ (mkLibc 4096 64 0, Malloc 20 "demo_allocs.c" 16);
                  (mkLibc 4128 65 0, Malloc 20 "demo_allocs.c" 25);
                  (mkLibc 4160 66 0, Malloc 12 "demo_allocs.c" 32) ] initial in
  List.length (head_allocs st) = 3%nat /\ leaked_bytes st = total_bytes_allocated st.
Proof.
  cbv zeta.
  pose proof (allocate_only_report
    [ (mkLibc 4096 64 0, Malloc 20 "demo_allocs.c" 16);
      (mkLibc 4128 65 0, Malloc 20 "demo_allocs.c" 25);
      (mkLibc 4160 66 0, Malloc 12 "demo_allocs.c" 32) ] eq_refl) as H.
  cbv zeta in H. destruct H as (H1 & _ & _ & _ & _ & H2 & _).
  split; [exact H1|exact H2].
Defined.

(** ** Allocation failures *)

(** X3: when the real allocator returns NULL, my_malloc, my_calloc and
    my_realloc(NULL, size) return NULL, print their own failure message and
    leave both lists and the six counters as they were; only the atexit flag
    is set. *)
Theorem failed_allocation_changes_nothing (h : libc) (st : tracker)
    (nmemb sz : Z) (f : string) (l : Z) :
  user_block h = NULL ->
  let frozen r :=
    result r = NULL /\
    final r = set_atexit_registered (if atexit_registered st =? 0 then 1
                                     else atexit_registered st) st in
  frozen (my_malloc h sz f l st) /\
  frozen (my_calloc h nmemb sz f l st) /\
  frozen (my_realloc h NULL sz f l st) /\
  In (Stderr (MallocFailed sz f l)) (output (my_malloc h sz f l st)) /\
  In (Stderr (CallocFailed nmemb sz f l)) (output (my_calloc h nmemb sz f l st)) /\
  In (Stderr (ReallocNullFailed sz f l)) (output (my_realloc h NULL sz f l st)).
Proof.
  intros Hu. apply Z.eqb_eq in Hu. cbv zeta.
  destruct st. splits; cases; auto.
Qed.

Lemma failed_allocation_demo :
  final (my_malloc (mkLibc 0 64 0) 20 "demo_allocs.c" 16 initial)
  = set_atexit_registered 1 initial.
Proof.
  exact (proj2 (proj1 (failed_allocation_changes_nothing (mkLibc 0 64 0) initial
                          1 20 "demo_allocs.c" 16 eq_refl))).
Defined.

(** ** Handing a caller's block to the real free *)

Ltac in_cases X :=
  repeat match type of X with
  | _ \/ _ => destruct X as [X|X]; [try discriminate X|]
  | False => contradiction
  end.

(** X4: the caller's pointer is handed to the real free (the free(ptr) of
    line 287) by my_free exactly when it is non-NULL and found in the active
    list; my_realloc hands a caller's pointer to free only through my_free,
    with a size of zero; my_malloc and my_calloc never do.  (The free(cur) of
    line 107 releases a tracking node of the tracker itself, not a caller's
    block, and is not meant here.) *)
Theorem real_free_only_for_tracked (h : libc) (st : tracker) (p q : pointer)
    (nmemb sz : Z) (f : string) (l : Z) :
  (In (RealFree q) (output (my_free h p f l st))
   <-> q = p /\ p <> NULL /\ In p (ledger st)) /\
  (In (RealFree q) (output (my_realloc h p sz f l st))
   <-> q = p /\ p <> NULL /\ sz = 0 /\ In p (ledger st)) /\
  ~ In (RealFree q) (output (my_malloc h sz f l st)) /\
  ~ In (RealFree q) (output (my_calloc h nmemb sz f l st)).
Proof.
  assert (T : In p (ledger st) <-> unlink p (head_allocs st) <> None).
  { rewrite unlink_none. unfold ledger.
    destruct (in_dec Z.eq_dec p (map ptr (head_allocs st))); tauto. }
  destruct (unlink p (head_allocs st)) as [[old rest]|] eqn:U.
  all: destruct (p =? NULL) eqn:Ep; destruct (sz =? 0) eqn:Es.
  all: splits; cases; eqb_props; unfold NULL in *.
  all: try solve [intros X; in_cases X].
  all: split;
    [ intros X; in_cases X; inversion X; subst; intuition congruence
    | intros X; decompose [and] X; subst; intuition congruence ].
Qed.

(** ** Releasing what was never tracked *)

(** X5: my_free of a non-NULL pointer that is neither in the active list nor
    in the freed list bumps total_free_calls and invalid_free_count, prints
    the untracked-pointer warning and changes nothing else; in particular
    neither list changes and the real free is not called. *)
Theorem my_free_untracked (h : libc) (st : tracker) (p : pointer)
    (f : string) (l : Z) :
  p <> NULL -> ~ In p (ledger st) -> freed_scan p (head_freed st) = false ->
  let r := my_free h p f l st in
  final r
  = set_invalid_free_count (wrap (invalid_free_count st + 1))
      (set_total_free_calls (wrap (total_free_calls st + 1)) st) /\
  output r = [Stderr (UntrackedFree p f l)].
Proof.
  intros Hp Hout Hf. apply unlink_none in Hout. apply Z.eqb_neq in Hp.
  cbv zeta. split; cases; reflexivity.
Qed.

Lemma my_free_untracked_demo :
  output (my_free (mkLibc 0 0 0) 140737488347000 "demo_allocs.c" 43 initial)
  = [Stderr (UntrackedFree 140737488347000 "demo_allocs.c" 43)].
Proof.
  refine (proj2 (my_free_untracked (mkLibc 0 0 0) initial 140737488347000
                   "demo_allocs.c" 43 _ _ eq_refl)).
  - discriminate.
  - cbn. tauto.
Defined.

(** ** A realloc that succeeds *)

(** X6: when my_realloc is given a non-zero size and a tracked pointer and
    the real realloc succeeds, the returned block is returned to the caller,
    the old record is unlinked and its size counted as freed, the old pointer
    is put in the freed list (if its node can be allocated), and a record for
    the returned block is pushed and counted (if its node can be allocated).
    No free call and no misuse is counted. *)
Theorem realloc_moves_record (st : tracker) (h : libc) (p : pointer)
    (sz : Z) (f : string) (l : Z) (old : Z) (rest : list AllocInfo) :
  p <> NULL -> sz <> 0 -> user_block h <> NULL ->
  unlink p (head_allocs st) = Some (old, rest) ->
  let r := my_realloc h p sz f l st in
  let recorded := negb (alloc_node h =? NULL) in
  result r = user_block h /\
  head_allocs (final r)
  = (if recorded then mkAllocInfo (user_block h) sz f l :: rest else rest) /\
  head_freed (final r)
  = (if freed_node h =? NULL then head_freed st else p :: head_freed st) /\
  total_bytes_freed (final r) = wrap (total_bytes_freed st + old) /\
  total_bytes_allocated (final r)
  = (if recorded then wrap (total_bytes_allocated st + sz)
     else total_bytes_allocated st) /\
  total_alloc_calls (final r)
  = (if recorded then wrap (total_alloc_calls st + 1) else total_alloc_calls st) /\
  total_free_calls (final r) = total_free_calls st /\
  double_free_count (final r) = double_free_count st /\
  invalid_free_count (final r) = invalid_free_count st.
Proof.
  intros Hp Hsz Hu U. apply Z.eqb_neq in Hp, Hsz, Hu.
  cbv zeta. splits; cases; reflexivity.
Qed.

Lemma realloc_moves_record_demo :
  let st := step initial (mkLibc 4096 64 0, Malloc 10 "main.c" 10) in
  let r := my_realloc (mkLibc 4096 65 66) 4096 20 "main.c" 11 st in
  head_allocs (final r) = [mkAllocInfo 4096 20 "main.c" 11] /\
  head_freed (final r) = [4096].
Proof.
  cbv zeta.
  pose proof (realloc_moves_record
    (step initial (mkLibc 4096 64 0, Malloc 10 "main.c" 10))
    (mkLibc 4096 65 66) 4096 20 "main.c" 11 10 []) as H.
  cbv zeta in H.
  assert (Hp : 4096 <> NULL) by discriminate.
  assert (Hsz : 20 <> 0) by discriminate.
  destruct (H Hp Hsz Hp eq_refl) as (_ & H1 & H2 & _).
  split; [exact H1|exact H2].
Defined.

(** ** A block whose tracking node could not be allocated *)

(** X7: when my_malloc gets the block but not the AllocInfo node, it still
    returns the block, prints the tracking-node message and records nothing:
    the lists and the six counters are unchanged.  If that block was neither
    tracked nor freed before, its later release is counted as an invalid
    free and the real free is not called. *)
Theorem untracked_block_release_is_invalid (st : tracker) (h h' : libc)
    (sz : Z) (f f' : string) (l l' : Z) :
  user_block h <> NULL -> alloc_node h = NULL ->
  ~ In (user_block h) (ledger st) ->
  freed_scan (user_block h) (head_freed st) = false ->
  let r := my_malloc h sz f l st in
  let r' := my_free h' (user_block h) f' l' (final r) in
  result r = user_block h /\
  final r = set_atexit_registered (if atexit_registered st =? 0 then 1
                                   else atexit_registered st) st /\
  In (Stderr TrackingNodeFailed) (output r) /\
  invalid_free_count (final r') = wrap (invalid_free_count st + 1) /\
  head_allocs (final r') = head_allocs st /\
  head_freed (final r') = head_freed st /\
  output r' = [Stderr (UntrackedFree (user_block h) f' l')].
Proof.
  intros Hu Hn Hout Hf.
  apply unlink_none in Hout. apply Z.eqb_neq in Hu. apply Z.eqb_eq in Hn.
  cbv zeta. destruct st. cbn [head_allocs head_freed] in *.
  splits; cases; auto.
Qed.

Lemma untracked_block_demo :
  let r := my_malloc (mkLibc 4096 0 0) 20 "demo_allocs.c" 16 initial in
  let r' := my_free (mkLibc 0 0 65) 4096 "demo_allocs.c" 21 (final r) in
  result r = 4096 /\ invalid_free_count (final r') = wrap (0 + 1).
Proof.
  cbv zeta.
  pose proof (untracked_block_release_is_invalid initial (mkLibc 4096 0 0)
    (mkLibc 0 0 65) 20 "demo_allocs.c" "demo_allocs.c" 16 21) as H.
  cbv zeta in H.
  assert (Hu : 4096 <> NULL) by discriminate.
  assert (Hout : ~ In 4096 (ledger initial)) by (cbn; tauto).
  destruct (H Hu eq_refl Hout eq_refl) as (H1 & _ & _ & H2 & _).
  split; [exact H1|exact H2].
Defined.

(** ** The freed list only grows *)

Lemma head_freed_step st hc :
  exists added, head_freed (step st hc) = added ++ head_freed st.
Proof.
  destruct hc as [h c]. unfold step. cbn [fst snd].
  destruct c as [sz f l|nmemb sz f l|p sz f l|p f l]; cases.
  all: first [exists []; reflexivity | eexists [_]; reflexivity].
Qed.

Lemma freed_scan_in p l : freed_scan p l = true <-> In p l.
Proof.
  induction l as [|q l IH]; cbn; [split; [discriminate|tauto]|].
  destruct (q =? p) eqn:E.
  - apply Z.eqb_eq in E. tauto.
  - apply Z.eqb_neq in E. rewrite IH. tauto.
Qed.

(** X8: no entry point ever removes a pointer from the freed list: once
    is_in_freed_list answers 1 for a pointer, it answers 1 after every
    further sequence of calls. *)
Theorem freed_list_only_grows (t : list (libc * call)) (st : tracker)
    (p : pointer) :
  freed_scan p (head_freed st) = true ->
  freed_scan p (head_freed (run t st)) = true.
Proof.
  revert st. induction t as [|hc t IH]; intros st H; [exact H|].
  change (run (hc :: t) st) with (run t (step st hc)). apply IH.
  destruct (head_freed_step st hc) as [added ->].
  apply freed_scan_in, in_or_app. right. apply freed_scan_in, H.
Qed.

Lemma freed_list_only_grows_demo :
  freed_scan 4096 (head_freed (run session
    (run [ (mkLibc 4096 64 0, Malloc 12 "demo_allocs.c" 32);
           (mkLibc 0 0 65,    Free 4096 "demo_allocs.c" 37) ] initial))) = true.
Proof. apply freed_list_only_grows. reflexivity. Defined.

(** ** Registering the report *)

Lemma atexit_calls_app a b :
  atexit_calls (a ++ b) = (atexit_calls a + atexit_calls b)%nat.
Proof. unfold atexit_calls. rewrite filter_app, length_app. reflexivity. Qed.

Lemma atexit_step st hc :
  atexit_registered (step st hc)
  = (if registers (snd hc) && (atexit_registered st =? 0) then 1
     else atexit_registered st) /\
  atexit_calls (call_output st hc)
  = (if registers (snd hc) && (atexit_registered st =? 0) then 1%nat else 0%nat).
Proof.
  destruct hc as [h c]. unfold step, call_output. cbn [fst snd].
  destruct (atexit_registered st =? 0) eqn:E.
  all: destruct c as [sz f l|nmemb sz f l|p sz f l|p f l].
  all: split; cases; reflexivity.
Qed.

Lemma atexit_run_registered t : forall st,
  atexit_registered st <> 0 ->
  atexit_registered (run t st) = atexit_registered st /\
  atexit_calls (run_output t st) = 0%nat.
Proof.
  induction t as [|hc t IH]; intros st H; [split; reflexivity|].
  destruct (atexit_step st hc) as [F C].
  apply Z.eqb_neq in H. rewrite H, andb_false_r in F, C.
  apply Z.eqb_neq in H.
  destruct (IH (step st hc)) as [F' C']; [congruence|].
  change (run (hc :: t) st) with (run t (step st hc)).
  cbn [run_output]. rewrite atexit_calls_app, C, C', F', F. auto.
Qed.

(** X9: from the initial tracker, atexit(leak_report) is called once, by the
    first call that is not a my_free, and never again; if every call of the
    run is a my_free it is not called at all and the flag stays clear. *)
Theorem report_registered_once (t : list (libc * call)) :
  let allocating := existsb (fun hc => registers (snd hc)) t in
  atexit_calls (run_output t initial) = (if allocating then 1%nat else 0%nat) /\
  atexit_registered (run t initial) = (if allocating then 1 else 0).
Proof.
  cbv zeta.
  assert (G : forall st, atexit_registered st = 0 ->
    atexit_calls (run_output t st)
    = (if existsb (fun hc => registers (snd hc)) t then 1%nat else 0%nat) /\
    atexit_registered (run t st)
    = (if existsb (fun hc => registers (snd hc)) t then 1 else 0)).
  { induction t as [|hc t IH]; intros st H; [split; [reflexivity|exact H]|].
    destruct (atexit_step st hc) as [F C].
    rewrite H in F, C. cbn [Z.eqb] in F, C. rewrite andb_true_r in F, C.
    change (run (hc :: t) st) with (run t (step st hc)).
    cbn [run_output existsb]. rewrite atexit_calls_app, C.
    destruct (registers (snd hc)); cbn [orb].
    - destruct (atexit_run_registered t (step st hc)) as [F' C'];
        [rewrite F; discriminate|].
      rewrite C', F', F. auto.
    - destruct (IH (step st hc)) as [C' F']; [congruence|].
      rewrite C', F'. auto. }
  apply G. reflexivity.
Qed.

(** ** Counting the free calls *)

Lemma free_calls_step st hc :
  total_free_calls (step st hc)
  = (if enters_my_free (snd hc) then wrap (total_free_calls st + 1)
     else total_free_calls st).
Proof.
  destruct hc as [h c]. unfold step. cbn [fst snd].
  destruct c as [sz f l|nmemb sz f l|p sz f l|p f l]; cbn [enters_my_free].
  - cases; reflexivity.
  - cases; reflexivity.
  - destruct (p =? NULL) eqn:Ep, (sz =? 0) eqn:Es; cbn [negb andb];
      cases; reflexivity.
  - cases; reflexivity.
Qed.

Lemma free_calls_run t : forall st,
  wrap (total_free_calls (run t st))
  = wrap (total_free_calls st + release_calls t).
Proof.
  induction t as [|hc t IH]; intros st.
  - cbn. f_equal; lia.
  - change (run (hc :: t) st) with (run t (step st hc)).
    rewrite IH, free_calls_step. cbn [release_calls].
    destruct (enters_my_free (snd hc)).
    + rewrite wrap_add_l. f_equal; lia.
    + f_equal; lia.
Qed.

(** X10: total_free_calls counts, modulo SIZE_MAX + 1, the my_free calls and
    the my_realloc calls with a non-NULL pointer and a size of zero, whatever
    their outcome; no other call changes it. *)
Theorem free_calls_counted (t : list (libc * call)) :
  total_free_calls (run t initial) = wrap (release_calls t).
Proof.
  destruct (counters_ok_run t initial counters_ok_initial) as (_ & H & _).
  rewrite <- (wrap_small _ H), free_calls_run. reflexivity.
Qed.

(** ** The byte balance after failed reallocs *)

Lemma discrepancy_step st hc lost :
  wrap (ledger_bytes (head_allocs st) + lost)
  = wrap (total_bytes_allocated st - total_bytes_freed st) ->
  wrap (ledger_bytes (head_allocs (step st hc)) + (lost + lost_bytes st hc))
  = wrap (total_bytes_allocated (step st hc) - total_bytes_freed (step st hc)).
Proof.
  destruct hc as [h c]. unfold step, lost_bytes, loses_record, tracked.
  cbn [fst snd]. intros B.
  destruct c as [sz f l|nmemb sz f l|p sz f l|p f l].
  - cases; rebalance B.
  - generalize (wrap (nmemb * sz)). intros s. cases; rebalance B.
  - destruct (unlink p (head_allocs st)) as [[old rest]|] eqn:U.
    + pose proof (unlink_bytes _ _ _ _ U) as S.
      destruct (p =? NULL) eqn:Ep, (sz =? 0) eqn:Es,
        (user_block h =? NULL) eqn:Eu; cbn [negb andb].
      all: cases; rebalance B.
    + rewrite !andb_false_r, ?andb_false_l. cases; rebalance B.
  - destruct (unlink p (head_allocs st)) as [[old rest]|] eqn:U.
    + pose proof (unlink_bytes _ _ _ _ U) as S. cases; rebalance B.
    + cases; rebalance B.
Qed.

(** X11: after every run from the initial tracker, the sum of the recorded
    sizes plus the sizes of the records dropped by failed reallocs of tracked
    blocks equals bytes allocated minus bytes freed, as [size_t] values. *)
Theorem balance_up_to_lost_records (t : list (libc * call)) :
  let st := run t initial in
  wrap (ledger_bytes (head_allocs st) + lost_in_run initial t)
  = wrap (total_bytes_allocated st - total_bytes_freed st).
Proof.
  cbv zeta.
  assert (G : forall st lost,
    wrap (ledger_bytes (head_allocs st) + lost)
    = wrap (total_bytes_allocated st - total_bytes_freed st) ->
    wrap (ledger_bytes (head_allocs (run t st)) + (lost + lost_in_run st t))
    = wrap (total_bytes_allocated (run t st) - total_bytes_freed (run t st))).
  { induction t as [|hc t IH]; intros st lost B.
    - cbn. rewrite Z.add_0_r. exact B.
    - change (run (hc :: t) st) with (run t (step st hc)).
      cbn [lost_in_run].
      replace (lost + (lost_bytes st hc + lost_in_run (step st hc) t))
        with (lost + lost_bytes st hc + lost_in_run (step st hc) t) by lia.
      apply IH. apply discrepancy_step, B. }
  apply (G initial 0). reflexivity.
Qed.

(** ** The data-model invariants hold in every reachable tracker *)

(** X12: in every tracker reached from the initial one by calls in which the
    real allocator never hands out a block that is still recorded (realloc
    may return the block it was given), no identity is recorded twice, NULL
    is not recorded, the six counters are [size_t] values, and the atexit
    flag is set whenever a record exists. *)
Theorem reachable_invariants (st : tracker) :
  reachable st ->
  NoDup (ledger st) /\ ~ In NULL (ledger st) /\ counters_ok st /\
  (head_allocs st <> [] -> atexit_registered st <> 0).
Proof.
  intros R. destruct (reachable_ok st R) as [[N NZ L] C]. auto.
Qed.

Lemma reachable_invariants_demo :
  NoDup (ledger (step (step initial (mkLibc 4096 64 0, Malloc 10 "main.c" 10))
                      (mkLibc 4096 65 66, Realloc 4096 20 "main.c" 11))).
Proof.
  refine (proj1 (reachable_invariants _ _)).
  apply reach_step; [apply reach_step; [apply reach_initial|]|].
  - cbn. tauto.
  - left. reflexivity.
Defined.

(** ** Unlinking a record *)

(** X13: remove_allocation_node prints nothing.  When no record holds the
    pointer it returns 0 and leaves the tracker as it was.  Otherwise it
    unlinks the first record that holds the pointer (the most recent one),
    returns that record's size, and keeps every other record, in order, and
    every counter. *)
Theorem remove_allocation_node_first_match (st : tracker) (p : pointer) :
  let r := remove_allocation_node p st in
  output r = [] /\
  match result r with
  | None => ~ In p (ledger st) /\ final r = st
  | Some sz =>
      exists pre node tail,
        head_allocs st = pre ++ node :: tail /\
        ~ In p (map ptr pre) /\ ptr node = p /\ size node = sz /\
        final r = set_head_allocs (pre ++ tail) st
  end.
Proof.
  cbv zeta. destruct (unlink p (head_allocs st)) as [[sz rest]|] eqn:U.
  - destruct (unlink_some _ _ _ _ U) as (pre & node & tail & E1 & E2 & E3 & E4 & E5).
    split; [cases; reflexivity|].
    replace (result (remove_allocation_node p st)) with (Some sz)
      by (cases; reflexivity).
    exists pre, node, tail. splits; auto. subst rest. cases. reflexivity.
  - split; [cases; reflexivity|].
    replace (result (remove_allocation_node p st)) with (@None Z)
      by (cases; reflexivity).
    split; [apply unlink_none, U|]. cases. destruct st; reflexivity.
Qed.

(** ** my_calloc *)

(** X14: my_calloc(nmemb, size) returns what my_malloc would return for the
    [size_t] product nmemb * size and leaves the same tracker: the recorded
    and counted size is the product modulo SIZE_MAX + 1, with no overflow
    check by the tracker. *)
Theorem calloc_is_malloc_of_product (h : libc) (nmemb sz : Z) (f : string)
    (l : Z) (st : tracker) :
  result (my_calloc h nmemb sz f l st)
  = result (my_malloc h (wrap (nmemb * sz)) f l st) /\
  final (my_calloc h nmemb sz f l st)
  = final (my_malloc h (wrap (nmemb * sz)) f l st).
Proof. split; cases; reflexivity. Qed.

(** ** Where the records come from *)

Lemma ledger_step_origin st hc q :
  In q (ledger (step st hc)) ->
  In q (ledger st) \/
  (q = user_block (fst hc) /\ q <> NULL /\ registers (snd hc) = true).
Proof.
  destruct hc as [h c]. unfold step, ledger. cbn [fst snd].
  destruct c as [sz f l|nmemb sz f l|p sz f l|p f l].
  all: cases; cbn; auto.
  all: eqb_props.
  all: try (intros [H|H]; [right; subst; auto|]).
  all: try (intros H).
  all: try solve [left; assumption].
  all: match goal with
       | U : unlink _ _ = Some _ |- _ =>
           left; apply (unlink_incl _ _ _ _ U); assumption
       end.
Qed.

(** X15: every identity in the active list is a non-NULL block that the real
    allocator returned to one of the my_malloc, my_calloc or my_realloc calls
    of the run; a pointer that was only ever passed in by the caller is never
    recorded. *)
Theorem records_come_from_the_allocator (t : list (libc * call)) (q : pointer) :
  In q (ledger (run t initial)) ->
  q <> NULL /\
  exists hc, In hc t /\ user_block (fst hc) = q /\ registers (snd hc) = true.
Proof.
  assert (G : forall st, In q (ledger (run t st)) ->
    In q (ledger st) \/
    (q <> NULL /\
     exists hc, In hc t /\ user_block (fst hc) = q /\ registers (snd hc) = true)).
  { induction t as [|hc t IH]; intros st H; [left; exact H|].
    change (run (hc :: t) st) with (run t (step st hc)) in H.
    destruct (IH _ H) as [H1|(Hq & hc' & Hin & Hu & Hr)].
    - apply ledger_step_origin in H1.
      destruct H1 as [H1|(Hu & Hq & Hr)]; [left; exact H1|].
      right. split; [exact Hq|]. exists hc. cbn. auto.
    - right. split; [exact Hq|]. exists hc'. cbn. auto. }
  intros H. destruct (G initial H) as [[]|H']. exact H'.
Qed.

Lemma records_come_from_the_allocator_demo :
  exists hc, In hc demo /\ user_block (fst hc) = 4128 /\ registers (snd hc) = true.
Proof.
  refine (proj2 (records_come_from_the_allocator demo 4128 _)).
  left. reflexivity.
Defined.

(** ** C10: my_realloc of an identity that is not tracked *)

Lemma ledger_run_origin t q : forall st,
  In q (ledger (run t st)) ->
  In q (ledger st) \/
  exists hc, In hc t /\ user_block (fst hc) = q /\ registers (snd hc) = true.
Proof.
  induction t as [|hc t IH]; intros st H; [left; exact H|].
  change (run (hc :: t) st) with (run t (step st hc)) in H.
  destruct (IH _ H) as [H1|(hc' & Hin & Hu & Hr)].
  - apply ledger_step_origin in H1.
    destruct H1 as [H1|(Hu & _ & Hr)]; [left; exact H1|].
    right. exists hc. cbn. auto.
  - right. exists hc'. cbn. auto.
Qed.

Lemma leak_report_ledger st q sz f l :
  In (Leak q sz f l) (leak_report st) -> In q (ledger st).
Proof.
  rewrite leak_report_shape. unfold ledger. intros H.
  apply in_app_or in H. destruct H as [H|H]; [cbn in H; in_cases H|].
  apply in_app_or in H. destruct H as [H|H]; [|cbn in H; in_cases H].
  destruct (head_allocs st) as [|n ns] eqn:E; [cbn in H; in_cases H|].
  rewrite <- E in *. clear E.
  destruct H as [H|H]; [discriminate H|].
  apply in_app_or in H. destruct H as [H|H]; [|cbn in H; in_cases H].
  apply in_map_iff in H. destruct H as (node & Hn & Hin).
  apply in_map_iff. exists node. split; [|exact Hin].
  unfold leak_line in Hn. congruence.
Qed.

(** C10, as stated, fails in its last part.  4096 is allocated and loses its
    record to a failed realloc, so it is live but not tracked.  The next
    my_realloc of 4096 takes the not-found path and returns 8192, the answer
    of the real realloc, without recording it.  A further my_realloc moves
    that block away from 8192, and the my_malloc that follows is handed 8192
    again: 8192 is entered into the active list and listed by the report. *)
Lemma returned_identity_listed_after_reuse :
  let st := run failed_growth initial in
  let r := my_realloc (mkLibc 8192 0 0) 4096 20 "main.c" 12 st in
  let st' := run [ (mkLibc 12288 0 0, Realloc 8192 40 "main.c" 13);
                   (mkLibc 8192 64 0, Malloc 16 "main.c" 14) ] (final r) in
  ~ In 4096 (ledger st) /\
  result r = 8192 /\
  head_allocs (final r) = head_allocs st /\
  In 8192 (ledger st') /\
  In (Leak 8192 16 "main.c" 14) (leak_report st').
Proof.
  cbv zeta. splits; try reflexivity.
  - cbn. tauto.
  - left. reflexivity.
  - vm_compute. do 8 right. left. reflexivity.
Qed.

(** C10 (amended): when my_realloc is given a non-zero size and a non-NULL
    identity that is not in the active list, it returns what the real realloc
    returns and bumps exactly one counter: double_free_count when the
    identity is in the freed list, invalid_free_count otherwise.  Both lists
    and the other counters are unchanged; in particular the call does not
    record the identity that the real realloc returns, and a later report
    lists that identity only if it was already in the active list before the
    call or the real allocator returns it again to a later my_malloc,
    my_calloc or my_realloc. *)
Theorem realloc_of_untracked (st : tracker) (h : libc) (p : pointer) (sz : Z)
    (f : string) (l : Z) :
  p <> NULL -> sz <> 0 -> ~ In p (ledger st) ->
  let r := my_realloc h p sz f l st in
  result r = user_block h /\
  head_allocs (final r) = head_allocs st /\
  head_freed (final r) = head_freed st /\
  total_alloc_calls (final r) = total_alloc_calls st /\
  total_free_calls (final r) = total_free_calls st /\
  total_bytes_allocated (final r) = total_bytes_allocated st /\
  total_bytes_freed (final r) = total_bytes_freed st /\
  (In p (head_freed st) ->
   double_free_count (final r) = wrap (double_free_count st + 1) /\
   invalid_free_count (final r) = invalid_free_count st) /\
  (~ In p (head_freed st) ->
   invalid_free_count (final r) = wrap (invalid_free_count st + 1) /\
   double_free_count (final r) = double_free_count st) /\
  leak_lines (final r) = leak_lines st /\
  (forall t s f' l',
     In (Leak (user_block h) s f' l') (leak_report (run t (final r))) ->
     In (user_block h) (ledger st) \/
     exists hc, In hc t /\ user_block (fst hc) = user_block h /\
                registers (snd hc) = true).
Proof.
  intros Hp Hsz Hout.
  apply unlink_none in Hout.
  apply Z.eqb_neq in Hp, Hsz.
  cbv zeta.
  assert (Hl : head_allocs (final (my_realloc h p sz f l st)) = head_allocs st)
    by (cases; reflexivity).
  splits; try (cases; reflexivity).
  - intros Hin. apply freed_scan_in in Hin. split; cases; reflexivity.
  - intros Hin.
    assert (Hf : freed_scan p (head_freed st) = false).
    { destruct (freed_scan p (head_freed st)) eqn:E; [|reflexivity].
      apply freed_scan_in in E. contradiction. }
    split; cases; reflexivity.
  - intros t s f' l' Hleak.
    apply leak_report_ledger, ledger_run_origin in Hleak.
    unfold ledger in Hleak at 1. rewrite Hl in Hleak. exact Hleak.
Qed.

(** The two branches, each on a block that is live but no longer tracked:
    after a failed realloc (not in the freed list), and after a realloc in
    place followed by a failed one (in the freed list). *)
Lemma realloc_of_untracked_demo :
  (let st := run failed_growth initial in
   let r := my_realloc (mkLibc 8192 0 0) 4096 20 "main.c" 12 st in
   result r = 8192 /\
   head_allocs (final r) = head_allocs st /\
   invalid_free_count (final r) = wrap (invalid_free_count st + 1) /\
   double_free_count (final r) = double_free_count st) /\
  (let st := run [ (mkLibc 4096 64 0,  Malloc 10 "main.c" 10);
                   (mkLibc 4096 65 66, Realloc 4096 20 "main.c" 11);
                   (mkLibc 0 0 0,      Realloc 4096 40 "main.c" 12) ] initial in
   let r := my_realloc (mkLibc 8192 0 0) 4096 40 "main.c" 13 st in
   double_free_count (final r) = wrap (double_free_count st + 1) /\
   invalid_free_count (final r) = invalid_free_count st).
Proof.
  assert (Hp : 4096 <> NULL) by discriminate.
  split; cbv zeta.
  - pose proof (realloc_of_untracked (run failed_growth initial)
                  (mkLibc 8192 0 0) 4096 20 "main.c" 12) as H.
    cbv zeta in H.
    assert (Hsz : 20 <> 0) by discriminate.
    assert (Hout : ~ In 4096 (ledger (run failed_growth initial)))
      by (cbn; tauto).
    destruct (H Hp Hsz Hout) as (H1 & H2 & _ & _ & _ & _ & _ & _ & H3 & _).
    assert (Hnf : ~ In 4096 (head_freed (run failed_growth initial)))
      by (cbn; tauto).
    destruct (H3 Hnf) as [H4 H5].
    splits; [exact H1|exact H2|exact H4|exact H5].
  - pose proof (realloc_of_untracked
                  (run [ (mkLibc 4096 64 0,  Malloc 10 "main.c" 10);
                         (mkLibc 4096 65 66, Realloc 4096 20 "main.c" 11);
                         (mkLibc 0 0 0,      Realloc 4096 40 "main.c" 12) ]
                       initial)
                  (mkLibc 8192 0 0) 4096 40 "main.c" 13) as H.
    cbv zeta in H.
    assert (Hsz : 40 <> 0) by discriminate.
    assert (Hout : ~ In 4096 (ledger
              (run [ (mkLibc 4096 64 0,  Malloc 10 "main.c" 10);
                     (mkLibc 4096 65 66, Realloc 4096 20 "main.c" 11);
                     (mkLibc 0 0 0,      Realloc 4096 40 "main.c" 12) ]
                   initial))) by (cbn; tauto).
    destruct (H Hp Hsz Hout) as (_ & _ & _ & _ & _ & _ & _ & H3 & _).
    exact (H3 (or_introl eq_refl)).
Defined.
